(** * HttpExchangeConnector (rtbkit, plugins/exchange/http_exchange_connector.cc)

    A shallow embedding of the HTTP exchange connector: the connector object,
    the handler registry guarded by [handlersLock], the request logger shared
    between the connector and its handlers, the ping-time table, the default
    response policies, the status report and the start-up sequence.

    Objects reached through [std::shared_ptr] live in explicit stores indexed
    by address, so that aliasing between the connector and its handlers is
    visible.  Exceptions are values of [Result].  Calls made on collaborators
    whose code lives elsewhere (the passive endpoint, the handler's wire) are
    recorded as events in the order in which the code issues them. *)

From stdpp Require Import gmap strings list fin_maps.
From Stdlib Require Import ZArith QArith.

Local Open Scope Z_scope.

(* stdpp's set_solver clears hypotheses that may be gone already *)
#[local] Set Warnings "-clear-no-such-hyp".

(** ** Exceptions *)

Module ML.
(** [ML::Exception], identified by its message. *)
Record Exception : Type := mkException { what : string }.
End ML.

Inductive Result (A : Type) : Type :=
| Ok (a : A)
| Throw (e : ML.Exception).
Arguments Ok {A} a.
Arguments Throw {A} e.

(** ** HTTP values *)

Record HttpHeader : Type := mkHttpHeader {
  verb : string;
  resource : string
}.

(** [HttpResponse(code, contentType, body)]. *)
Record HttpResponse : Type := mkHttpResponse {
  responseCode : Z;
  contentType : string;
  body : string
}.

(** ** Request logger objects ([HttpAuctionLogger]) *)

Module HttpAuctionLogger.
Record t : Type := mk {
  filename : string;
  count : Z;
  closed : bool
}.

(** [logger->close()] *)
Definition close (l : t) : t :=
  {| filename := filename l; count := count l; closed := true |}.
End HttpAuctionLogger.

(** ** Handler objects ([HttpAuctionHandler]) *)

(** What a handler was asked to put on its connection. *)
Inductive WireCall : Type :=
| PutResponseOnWire (r : HttpResponse)
| SendErrorResponse (msg : string).

Module HttpAuctionHandler.
Record t : Type := mk {
  logger : option nat;      (* std::shared_ptr<HttpAuctionLogger>, None = null *)
  header : HttpHeader;      (* header of the request being served *)
  peerName : string;        (* transport().getPeerName() *)
  wire : list WireCall      (* calls received so far, oldest first *)
}.

(** [handler->logger = l] *)
Definition set_logger (l : option nat) (h : t) : t :=
  {| logger := l; header := header h; peerName := peerName h; wire := wire h |}.

Definition putResponseOnWire (r : HttpResponse) (h : t) : t :=
  {| logger := logger h; header := header h; peerName := peerName h;
     wire := wire h ++ [PutResponseOnWire r] |}.

Definition sendErrorResponse (msg : string) (h : t) : t :=
  {| logger := logger h; header := header h; peerName := peerName h;
     wire := wire h ++ [SendErrorResponse msg] |}.
End HttpAuctionHandler.

(** The metric recorded by a transport notification hook. *)
Inductive Hook : Type :=
| RecordHit (metric : string).

(** ** Declarations taken from headers that are not part of this file

    The connector only stores, copies and divides floating-point values, so
    their representation is kept abstract, as are the port range handed to
    the endpoint, the auction object, the backlog constant and the state of a
    default-constructed handler. *)
Class Externals : Type := {
  float : Type;
  of_int : Z → float;                 (* conversion of an integer *)
  fdiv : float → float → float;       (* operator/ *)
  PortRange : Type;
  PortRange_of_int : Z → PortRange;   (* PortRange(int) *)
  DEF_BACKLOG : Z;
  Auction : Type;
  HttpAuctionHandler_new : HttpAuctionHandler.t   (* HttpAuctionHandler() *)
}.

Section Model.

Context `{Externals}.

(** ** JSON values ([Json::Value]) *)

#[warnings="-register-all"]
Inductive Json : Type :=
| JNull
| JInt (n : Z)
| JReal (x : float)
| JObject (members : list (string * Json)).

(** The part of the [HttpEndpoint] base object that the connector reads. *)
Record HttpEndpoint : Type := mkHttpEndpoint {
  numConnections : Z;
  numConnectionsByHost : gmap string Z
}.

(** Calls on the [PassiveEndpoint] base. *)
Inductive EndpointCall : Type :=
| Init (port : PortRange) (host : string) (threads : Z) (flag : bool)
       (nameLookup : bool) (backlog : Z)
| MakeRealTime (priority : Z).

Record HttpExchangeConnector : Type := mkConnector {
  endpoint : HttpEndpoint;
  numThreads : Z;
  realTimePriority : Z;
  listenPort : PortRange;
  bindHost : string;
  performNameLookup : bool;
  backlog : Z;
  auctionResource : string;
  auctionVerb : string;
  pingTimesByHostMs : gmap string float;
  pingTimeUnknownHostsMs : float;
  numServingRequest_ : Z;
  acceptAuctionProbability : float;
  onTransportOpen : option Hook;
  onTransportClose : option Hook;
  (* std::function<HttpAuctionHandler * ()>: None = empty function; a call
     hands over a newly allocated object, or the null pointer (None) *)
  handlerFactory : option (unit → option HttpAuctionHandler.t);
  logger : option nat;        (* std::shared_ptr<HttpAuctionLogger> *)
  handlers : gset nat         (* std::set<std::shared_ptr<HttpAuctionHandler>> *)
}.

(** The connector together with the objects it shares with its handlers. *)
Record World : Type := mkWorld {
  this : HttpExchangeConnector;
  handlerObjs : gmap nat HttpAuctionHandler.t;
  loggerObjs : gmap nat HttpAuctionLogger.t
}.

Definition set_logger (l : option nat) (c : HttpExchangeConnector)
  : HttpExchangeConnector :=
  {| endpoint := endpoint c;
     numThreads := numThreads c;
     realTimePriority := realTimePriority c;
     listenPort := listenPort c;
     bindHost := bindHost c;
     performNameLookup := performNameLookup c;
     backlog := backlog c;
     auctionResource := auctionResource c;
     auctionVerb := auctionVerb c;
     pingTimesByHostMs := pingTimesByHostMs c;
     pingTimeUnknownHostsMs := pingTimeUnknownHostsMs c;
     numServingRequest_ := numServingRequest_ c;
     acceptAuctionProbability := acceptAuctionProbability c;
     onTransportOpen := onTransportOpen c;
     onTransportClose := onTransportClose c;
     handlerFactory := handlerFactory c;
     logger := l;
     handlers := handlers c |}.

Definition set_handlers (hs : gset nat) (c : HttpExchangeConnector)
  : HttpExchangeConnector :=
  {| endpoint := endpoint c;
     numThreads := numThreads c;
     realTimePriority := realTimePriority c;
     listenPort := listenPort c;
     bindHost := bindHost c;
     performNameLookup := performNameLookup c;
     backlog := backlog c;
     auctionResource := auctionResource c;
     auctionVerb := auctionVerb c;
     pingTimesByHostMs := pingTimesByHostMs c;
     pingTimeUnknownHostsMs := pingTimeUnknownHostsMs c;
     numServingRequest_ := numServingRequest_ c;
     acceptAuctionProbability := acceptAuctionProbability c;
     onTransportOpen := onTransportOpen c;
     onTransportClose := onTransportClose c;
     handlerFactory := handlerFactory c;
     logger := logger c;
     handlers := hs |}.

Definition set_handlerFactory
    (f : option (unit → option HttpAuctionHandler.t))
    (c : HttpExchangeConnector) : HttpExchangeConnector :=
  {| endpoint := endpoint c;
     numThreads := numThreads c;
     realTimePriority := realTimePriority c;
     listenPort := listenPort c;
     bindHost := bindHost c;
     performNameLookup := performNameLookup c;
     backlog := backlog c;
     auctionResource := auctionResource c;
     auctionVerb := auctionVerb c;
     pingTimesByHostMs := pingTimesByHostMs c;
     pingTimeUnknownHostsMs := pingTimeUnknownHostsMs c;
     numServingRequest_ := numServingRequest_ c;
     acceptAuctionProbability := acceptAuctionProbability c;
     onTransportOpen := onTransportOpen c;
     onTransportClose := onTransportClose c;
     handlerFactory := f;
     logger := logger c;
     handlers := handlers c |}.

(** ** Construction *)

(** [postConstructorInit()]: the members it assigns; the others keep what
    the object had. *)
Definition postConstructorInit (c : HttpExchangeConnector)
  : HttpExchangeConnector :=
  {| endpoint := endpoint c;
     numThreads := 8;
     realTimePriority := -1;
     listenPort := PortRange_of_int 10001;
     bindHost := "*";
     performNameLookup := true;
     backlog := DEF_BACKLOG;
     auctionResource := auctionResource c;
     auctionVerb := auctionVerb c;
     pingTimesByHostMs := pingTimesByHostMs c;
     pingTimeUnknownHostsMs := of_int 20;
     numServingRequest_ := 0;
     acceptAuctionProbability := of_int 1;
     onTransportOpen := Some (RecordHit "auctionNewConnection");
     onTransportClose := Some (RecordHit "auctionClosedConnection");
     handlerFactory := Some (λ _, Some HttpAuctionHandler_new);
     logger := logger c;
     handlers := handlers c |}.

(** The members as their default constructors leave them, before the body of
    the constructor runs.  Members of built-in type, which
    [postConstructorInit] assigns, are given as arguments. *)
Definition default_members (ep : HttpEndpoint) (c0 : HttpExchangeConnector)
  : HttpExchangeConnector :=
  {| endpoint := ep;
     numThreads := numThreads c0;
     realTimePriority := realTimePriority c0;
     listenPort := listenPort c0;
     bindHost := "";
     performNameLookup := performNameLookup c0;
     backlog := backlog c0;
     auctionResource := "";
     auctionVerb := "";
     pingTimesByHostMs := ∅;
     pingTimeUnknownHostsMs := pingTimeUnknownHostsMs c0;
     numServingRequest_ := numServingRequest_ c0;
     acceptAuctionProbability := acceptAuctionProbability c0;
     onTransportOpen := None;
     onTransportClose := None;
     handlerFactory := None;
     logger := None;
     handlers := ∅ |}.

(** [HttpExchangeConnector(name, parent)] and
    [HttpExchangeConnector(name, proxies)]. *)
Definition HttpExchangeConnector_ctor (ep : HttpEndpoint)
    (c0 : HttpExchangeConnector) : HttpExchangeConnector :=
  postConstructorInit (default_members ep c0).

(** [configureHttp(...)] *)
Definition configureHttp (numThreads' : Z) (listenPort' : PortRange)
    (bindHost' : string) (performNameLookup' : bool) (backlog' : Z)
    (auctionResource' auctionVerb' : string) (realTimePriority' : Z)
    (c : HttpExchangeConnector) : HttpExchangeConnector :=
  {| endpoint := endpoint c;
     numThreads := numThreads';
     realTimePriority := realTimePriority';
     listenPort := listenPort';
     bindHost := bindHost';
     performNameLookup := performNameLookup';
     backlog := backlog';
     auctionResource := auctionResource';
     auctionVerb := auctionVerb';
     pingTimesByHostMs := pingTimesByHostMs c;
     pingTimeUnknownHostsMs := pingTimeUnknownHostsMs c;
     numServingRequest_ := numServingRequest_ c;
     acceptAuctionProbability := acceptAuctionProbability c;
     onTransportOpen := onTransportOpen c;
     onTransportClose := onTransportClose c;
     handlerFactory := handlerFactory c;
     logger := logger c;
     handlers := handlers c |}.

(** ** Start-up *)

(** [start()].  [initThrows] is what [PassiveEndpoint::init] does on this
    run: [None] when it returns, [Some e] when it throws [e].  The result
    carries the calls made on the endpoint, in order. *)
Definition start (initThrows : option ML.Exception)
    (c : HttpExchangeConnector)
  : Result unit * list EndpointCall :=
  let init := Init (listenPort c) (bindHost c) (numThreads c) true
                   (performNameLookup c) (backlog c) in
  match initThrows with
  | Some e => (Throw e, [init])
  | None =>
      if bool_decide (realTimePriority c > -1)
      then (Ok (), [init; MakeRealTime (realTimePriority c)])
      else (Ok (), [init])
  end.

(** ** Request logging *)

(** [startRequestLogging(filename, count)]: [std::make_shared] places a new
    logger object at an address not in use. *)
Definition startRequestLogging (filename : string) (count : Z) (w : World)
  : World :=
  let l := fresh (dom (loggerObjs w)) in
  {| this := set_logger (Some l) (this w);
     handlerObjs := handlerObjs w;
     loggerObjs :=
       <[l := HttpAuctionLogger.mk filename count false]> (loggerObjs w) |}.

(** [stopRequestLogging()] *)
Definition stopRequestLogging (w : World) : World :=
  let loggers :=
    match logger (this w) with
    | Some l => alter HttpAuctionLogger.close l (loggerObjs w)
    | None => loggerObjs w
    end in
  {| this := set_logger None (this w);
     handlerObjs := handlerObjs w;
     loggerObjs := loggers |}.

(** ** The handler registry *)

(** [makeNewHandlerShared()].  The object returned by the factory is owned by
    the new [shared_ptr]; its address is one at which no handler object
    lives.  The store keeps every object ever made, so an address is not
    used again here; the allocator may use one again once its handler has
    been destroyed, which no property below excludes. *)
Definition makeNewHandlerShared (w : World) : Result nat * World :=
  match handlerFactory (this w) with
  | None =>
      (Throw (ML.mkException "need to initialize handler factory"), w)
  | Some factory =>
      match factory () with
      | None => (Throw (ML.mkException "failed to create handler"), w)
      | Some obj =>
          let handler := fresh (dom (handlerObjs w)) in
          let obj' :=
            match logger (this w) with
            | Some l => HttpAuctionHandler.set_logger (Some l) obj
            | None => obj
            end in
          (Ok handler,
           {| this := set_handlers ({[handler]} ∪ handlers (this w)) (this w);
              handlerObjs := <[handler := obj']> (handlerObjs w);
              loggerObjs := loggerObjs w |})
      end
  end.

(** [makeNewHandler()] *)
Definition makeNewHandler (w : World) : Result nat * World :=
  makeNewHandlerShared w.

(** [finishedWithHandler(handler)] *)
Definition finishedWithHandler (handler : nat) (w : World) : World :=
  {| this := set_handlers (handlers (this w) ∖ {[handler]}) (this w);
     handlerObjs := handlerObjs w;
     loggerObjs := loggerObjs w |}.

(** ** Status report *)

(** Members of a JSON object, as a list of pairs with distinct keys. *)
Fixpoint members_get (k : string) (ms : list (string * Json)) : option Json :=
  match ms with
  | [] => None
  | (k', v) :: ms' => if String.eqb k k' then Some v else members_get k ms'
  end.

Fixpoint members_set (k : string) (v : Json) (ms : list (string * Json))
  : list (string * Json) :=
  match ms with
  | [] => [(k, v)]
  | (k', v') :: ms' =>
      if String.eqb k k' then (k, v) :: ms' else (k', v') :: members_set k v ms'
  end.

Definition Json_members (j : Json) : list (string * Json) :=
  match j with
  | JObject ms => ms
  | _ => []
  end.

(** [j[k]] on a constant value: the member, or null when there is none. *)
Definition Json_get (k : string) (j : Json) : Json :=
  default JNull (members_get k (Json_members j)).

(** [j[k]] used as a reference on a null or object value: a null value
    becomes an object, a missing member is created as null, and [f] is what
    is then done to the member. *)
Definition Json_at (k : string) (f : Json → Json) (j : Json) : Json :=
  JObject (members_set k (f (Json_get k j)) (Json_members j)).

(** [j[k] = v] *)
Definition Json_assign (k : string) (v : Json) (j : Json) : Json :=
  Json_at k (λ _, v) j.

(** Modelled from the spec: [xdiv<float>(x, y)] of the jml utilities, which
    are not part of this file, is the quotient of [x] by [y] as floats, and
    zero when [y] is zero. *)
Definition xdiv (x y : Z) : float :=
  if bool_decide (y = 0) then of_int 0 else fdiv (of_int x) (of_int y).

(** Modelled from the spec: the accessor [numServingRequest()], declared in
    the header, reads the count of connections that are serving a request. *)
Definition numServingRequest (c : HttpExchangeConnector) : Z :=
  numServingRequest_ c.

(** The body of the loop of [getServiceStatus]:
    [result["hostConnections"][cnt.first] = cnt.second]. *)
Definition add_host (result : Json) (cnt : string * Z) : Json :=
  Json_at "hostConnections" (Json_assign cnt.1 (JInt cnt.2)) result.

(** [getServiceStatus()].  The loop visits every entry of [peerCounts] once;
    the entries have distinct keys. *)
Definition getServiceStatus (c : HttpExchangeConnector) : Json :=
  let result := JNull in
  let result :=
    Json_assign "numConnections" (JInt (numConnections (endpoint c))) result in
  let result :=
    Json_assign "activeConnections" (JInt (numServingRequest c)) result in
  let result :=
    Json_assign "connectionLoadFactor"
      (JReal (xdiv (numServingRequest c) (numConnections (endpoint c))))
      result in
  let peerCounts := numConnectionsByHost (endpoint c) in
  foldl add_host result (map_to_list peerCounts).

(** ** The exchange protocol: base implementations *)

(** [parseBidRequest] *)
Definition parseBidRequest {BidRequest : Type} (c : HttpExchangeConnector)
    (connection : HttpAuctionHandler.t) (header : HttpHeader)
    (payload : string) : Result BidRequest :=
  Throw (ML.mkException
           "need to override HttpExchangeConnector::parseBidRequest").

(** [getTimeAvailableMs] *)
Definition getTimeAvailableMs (c : HttpExchangeConnector)
    (connection : HttpAuctionHandler.t) (header : HttpHeader)
    (payload : string) : Result float :=
  Throw (ML.mkException
           "need to override HttpExchangeConnector::getTimeAvailableMs").

(** [getRoundTripTimeMs].  The member function is not [const]: the result
    carries the connector as the call leaves it. *)
Definition getRoundTripTimeMs (c : HttpExchangeConnector)
    (connection : HttpAuctionHandler.t) (header : HttpHeader)
  : float * HttpExchangeConnector :=
  let peerName := HttpAuctionHandler.peerName connection in
  match pingTimesByHostMs c !! peerName with
  | None => (pingTimeUnknownHostsMs c, c)
  | Some ms => (ms, c)
  end.

(** [getResponse], as the base class defines it. *)
Definition getResponse (c : HttpExchangeConnector)
    (connection : HttpAuctionHandler.t) (requestHeader : HttpHeader)
    (auction : Auction) : Result HttpResponse :=
  Throw (ML.mkException "need to override HttpExchangeConnector::getResponse").

(** The virtual member functions an exchange may override; [None] keeps the
    base implementation. *)
Record Overrides : Type := mkOverrides {
  override_getResponse :
    option (HttpExchangeConnector → HttpAuctionHandler.t → HttpHeader →
            Auction → Result HttpResponse)
}.

(** A call of [getResponse] through the object: the final overrider. *)
Definition virtual_getResponse (ov : Overrides)
  : HttpExchangeConnector → HttpAuctionHandler.t → HttpHeader → Auction →
    Result HttpResponse :=
  default getResponse (override_getResponse ov).

(** [getDroppedAuctionResponse], as the base class defines it. *)
Definition getDroppedAuctionResponse (ov : Overrides)
    (c : HttpExchangeConnector) (connection : HttpAuctionHandler.t)
    (auction : Auction) (reason : string) : Result HttpResponse :=
  virtual_getResponse ov c connection (HttpAuctionHandler.header connection)
                      auction.

(** [getErrorResponse], as the base class defines it. *)
Definition getErrorResponse (ov : Overrides)
    (c : HttpExchangeConnector) (connection : HttpAuctionHandler.t)
    (auction : Auction) (errorMessage : string) : Result HttpResponse :=
  virtual_getResponse ov c connection (HttpAuctionHandler.header connection)
                      auction.

(** [handleUnknownRequest]: the result is the connection after the call. *)
Definition handleUnknownRequest (c : HttpExchangeConnector)
    (connection : HttpAuctionHandler.t) (header : HttpHeader)
    (payload : string) : HttpAuctionHandler.t :=
  if String.eqb (resource header) "/ready"
  then HttpAuctionHandler.putResponseOnWire
         (mkHttpResponse 200 "text/plain" "1") connection
  else HttpAuctionHandler.sendErrorResponse
         ("unknown resource " +:+ resource header) connection.

(** The calls a connection received between two of its states. *)
Definition sent_since (before after : HttpAuctionHandler.t) : list WireCall :=
  drop (length (HttpAuctionHandler.wire before)) (HttpAuctionHandler.wire after).

(** [s] occurs in [t]. *)
Definition contains (t s : string) : Prop :=
  ∃ pre post : string, t = pre +:+ s +:+ post.

(** ** Sequences of calls on the registry *)

Inductive Call : Type :=
| CallStartRequestLogging (filename : string) (count : Z)
| CallStopRequestLogging
| CallMakeNewHandler
| CallFinishedWithHandler (handler : nat)
| AssignHandlerFactory (f : option (unit → option HttpAuctionHandler.t)).

Inductive Outcome : Type :=
| Returned
| ReturnedHandler (handler : nat)
| Thrown (e : ML.Exception).

Definition exec (call : Call) (w : World) : Outcome * World :=
  match call with
  | CallStartRequestLogging filename count =>
      (Returned, startRequestLogging filename count w)
  | CallStopRequestLogging => (Returned, stopRequestLogging w)
  | CallMakeNewHandler =>
      match makeNewHandler w with
      | (Ok h, w') => (ReturnedHandler h, w')
      | (Throw e, w') => (Thrown e, w')
      end
  | CallFinishedWithHandler h => (Returned, finishedWithHandler h w)
  | AssignHandlerFactory f =>
      (Returned,
       {| this := set_handlerFactory f (this w);
          handlerObjs := handlerObjs w;
          loggerObjs := loggerObjs w |})
  end.

(** Runs the calls in order; the history pairs each call with what it
    returned. *)
Fixpoint run (calls : list Call) (w : World)
  : list (Call * Outcome) * World :=
  match calls with
  | [] => ([], w)
  | call :: calls' =>
      let '(o, w1) := exec call w in
      let '(history, w2) := run calls' w1 in
      ((call, o) :: history, w2)
  end.

Definition assigns_factory (call : Call) : bool :=
  match call with
  | AssignHandlerFactory _ => true
  | _ => false
  end.

(** *** Counting from the history alone *)

(** The number of [makeNewHandler] calls that returned a handler. *)
Fixpoint successful_creates (history : list (Call * Outcome)) : nat :=
  match history with
  | [] => 0%nat
  | (CallMakeNewHandler, ReturnedHandler _) :: history' =>
      S (successful_creates history')
  | _ :: history' => successful_creates history'
  end.

(** The number of [finishedWithHandler] calls whose argument had been handed
    out and not been released since; [live] lists the handlers outstanding
    before the history starts. *)
Fixpoint effective_releases (live : list nat)
    (history : list (Call * Outcome)) : nat :=
  match history with
  | [] => 0%nat
  | (CallMakeNewHandler, ReturnedHandler h) :: history' =>
      effective_releases (h :: live) history'
  | (CallFinishedWithHandler h, _) :: history' =>
      if bool_decide (h ∈ live)
      then S (effective_releases (filter (λ x, x ≠ h) live) history')
      else effective_releases live history'
  | _ :: history' => effective_releases live history'
  end.

(** The registry invariant behind the count: [live] lists the registered
    handlers without repetition, and every registered handler is an object
    in the store. *)
Definition tracks (live : list nat) (w : World) : Prop :=
  NoDup live ∧ list_to_set live = handlers (this w) ∧
  handlers (this w) ⊆ dom (handlerObjs w).

(** The logger a handler object refers to. *)
Definition handler_logger (w : World) (handler : nat) : option nat :=
  h ← handlerObjs w !! handler; HttpAuctionHandler.logger h.

(** The handlers handed out and not released since, read off the history;
    [live] lists those outstanding before the history starts. *)
Fixpoint outstanding (live : list nat) (history : list (Call * Outcome))
  : list nat :=
  match history with
  | [] => live
  | (CallMakeNewHandler, ReturnedHandler h) :: history' =>
      outstanding (h :: live) history'
  | (CallFinishedWithHandler h, _) :: history' =>
      outstanding (filter (λ x, x ≠ h) live) history'
  | _ :: history' => outstanding live history'
  end.

(** The logger the connector holds, if any, is an object that has not been
    closed. *)
Definition logger_open (w : World) : Prop :=
  ∀ l, logger (this w) = Some l →
       ∃ obj, loggerObjs w !! l = Some obj ∧
              HttpAuctionLogger.closed obj = false.

(** The members that the registry and logging functions do not assign. *)
Definition settings (c : HttpExchangeConnector) :=
  (endpoint c, numThreads c, realTimePriority c, listenPort c, bindHost c,
   performNameLookup c, backlog c, auctionResource c, auctionVerb c,
   pingTimesByHostMs c, pingTimeUnknownHostsMs c, numServingRequest_ c,
   acceptAuctionProbability c).

End Model.

(** ** A concrete platform and concrete objects, used to run the model *)

Module Sample.

#[export] Instance externals : Externals := {|
  float := Q;
  of_int := inject_Z;
  fdiv := Qdiv;
  PortRange := Z * Z;
  PortRange_of_int := λ p, (p, p + 1);
  DEF_BACKLOG := 128;
  Auction := unit;
  HttpAuctionHandler_new :=
    HttpAuctionHandler.mk None (mkHttpHeader "" "") "" []
|}.

(** Storage before construction: the values are never read. *)
Definition storage : HttpExchangeConnector :=
  mkConnector (mkHttpEndpoint 0 ∅) 0 0 (0, 0) "" false 0 "" ""
              ∅ (inject_Z 0) 0 (inject_Z 0) None None None None ∅.

(** A newly constructed connector with no connection. *)
Definition connector : HttpExchangeConnector :=
  HttpExchangeConnector_ctor (mkHttpEndpoint 0 ∅) storage.

Definition world : World := mkWorld connector ∅ ∅.

(** A connector whose factory has been cleared, and one whose factory
    returns the null pointer. *)
Definition world_no_factory : World :=
  mkWorld (set_handlerFactory None connector) ∅ ∅.

Definition world_null_factory : World :=
  mkWorld (set_handlerFactory (Some (λ _, None)) connector) ∅ ∅.

(** A configured connector with four connections from two peers, two of
    them serving a request, and a ping time for one of the peers. *)
Definition busy_connector : HttpExchangeConnector :=
  mkConnector
    (mkHttpEndpoint 4 {[ "10.0.0.1" := 3; "10.0.0.2" := 1 ]})
    8 5 (10001, 10002) "*" true 128 "/bid" "POST"
    {[ "10.0.0.1" := inject_Z 35 ]} (inject_Z 20) 2 (inject_Z 1)
    (Some (RecordHit "auctionNewConnection"))
    (Some (RecordHit "auctionClosedConnection"))
    (Some (λ _, Some HttpAuctionHandler_new)) None ∅.

(** The world once request logging has been started. *)
Definition logging_world : World :=
  startRequestLogging "requests.log" 10 world.

(** Calls made after a first handler has been created. *)
Definition later_calls : list Call :=
  [CallStopRequestLogging; CallStartRequestLogging "other.log" 5;
   CallMakeNewHandler; CallFinishedWithHandler 0; CallStopRequestLogging].

(** Three creations, one of which fails, and three releases, one of which
    names a handler that was never created and one a handler already
    released. *)
Definition busy_calls : list Call :=
  [CallMakeNewHandler; CallMakeNewHandler; CallFinishedWithHandler 7;
   AssignHandlerFactory (Some (λ _, None)); CallMakeNewHandler;
   CallFinishedWithHandler 0; CallFinishedWithHandler 0].

(** A port range other than the default. *)
Definition port : PortRange := (9000, 9001).

(** A creation followed by a change of logger. *)
Definition logging_calls : list Call :=
  [CallMakeNewHandler; CallStopRequestLogging;
   CallStartRequestLogging "other.log" 5].

(** The world after one handler has been created without a logger, and after
    a second one has. *)
Definition one_handler_world : World := (makeNewHandlerShared world).2.

Definition two_handler_world : World :=
  (makeNewHandlerShared one_handler_world).2.

(** A connection from a peer, serving a request. *)
Definition connection (peer res : string) : HttpAuctionHandler.t :=
  HttpAuctionHandler.mk None (mkHttpHeader "GET" res) peer [].

End Sample.

(** * Properties *)

Section Properties.

Context `{Externals}.

Implicit Types (w : World) (c : HttpExchangeConnector) (h l : nat).

(** ** Handler and logger objects across calls *)

Lemma set_handlers_same c : set_handlers (handlers c) c = c.
Proof. by destruct c. Qed.

Lemma makeNewHandlerShared_keeps_obj w h obj :
  handlerObjs w !! h = Some obj →
  handlerObjs (makeNewHandlerShared w).2 !! h = Some obj.
Proof.
  intros Hobj. unfold makeNewHandlerShared.
  destruct (handlerFactory (this w)) as [factory|]; [|done].
  destruct (factory ()) as [new|]; [|done]. simpl.
  rewrite lookup_insert_ne; [done|].
  intros <-. apply (is_fresh (dom (handlerObjs w))).
  apply elem_of_dom. by exists obj.
Qed.

Lemma exec_keeps_obj call w h obj :
  handlerObjs w !! h = Some obj →
  handlerObjs (exec call w).2 !! h = Some obj.
Proof.
  intros Hobj. destruct call; simpl; try done.
  pose proof (makeNewHandlerShared_keeps_obj w h obj Hobj) as Hkeep.
  unfold makeNewHandler.
  by destruct (makeNewHandlerShared w) as [[h'|e] w'].
Qed.

Lemma run_keeps_obj calls w h obj :
  handlerObjs w !! h = Some obj →
  handlerObjs (run calls w).2 !! h = Some obj.
Proof.
  revert w. induction calls as [|call calls IH]; intros w Hobj; [done|].
  simpl. pose proof (exec_keeps_obj call w h obj Hobj) as Hstep.
  destruct (exec call w) as [o w1]. simpl in Hstep.
  specialize (IH w1 Hstep).
  by destruct (run calls w1) as [history w2].
Qed.

(** What a successful [makeNewHandlerShared] did. *)
Lemma makeNewHandlerShared_Ok w h w' :
  makeNewHandlerShared w = (Ok h, w') →
  ∃ factory obj,
    handlerFactory (this w) = Some factory ∧ factory () = Some obj ∧
    h = fresh (dom (handlerObjs w)) ∧
    this w' = set_handlers ({[h]} ∪ handlers (this w)) (this w) ∧
    loggerObjs w' = loggerObjs w ∧
    handlerObjs w' =
      <[h := match logger (this w) with
             | Some l => HttpAuctionHandler.set_logger (Some l) obj
             | None => obj
             end]> (handlerObjs w).
Proof.
  unfold makeNewHandlerShared.
  destruct (handlerFactory (this w)) as [factory|]; [|done].
  destruct (factory ()) as [obj|] eqn:Hobj; [|done].
  intros [= <- <-]. by exists factory, obj.
Qed.

(** A failed [makeNewHandlerShared] changed nothing. *)
Lemma makeNewHandlerShared_Throw w e w' :
  makeNewHandlerShared w = (Throw e, w') → w' = w.
Proof.
  unfold makeNewHandlerShared.
  destruct (handlerFactory (this w)) as [factory|]; [|congruence].
  destruct (factory ()); congruence.
Qed.

(** C1: a handler created while the logger [l] is installed refers to [l];
    [stopRequestLogging] resets the connector's own logger pointer; and after
    any further calls on the connector ([startRequestLogging],
    [stopRequestLogging], and also creations, releases and factory
    assignments) the handler still refers to [l]. *)
Theorem handler_keeps_bound_logger w l h w' (calls : list Call) :
  logger (this w) = Some l →
  makeNewHandlerShared w = (Ok h, w') →
  handler_logger w' h = Some l ∧
  logger (this (stopRequestLogging w')) = None ∧
  handler_logger (stopRequestLogging w') h = Some l ∧
  handler_logger (run calls w').2 h = Some l.
Proof.
  intros Hl Hmk.
  destruct (makeNewHandlerShared_Ok _ _ _ Hmk)
    as (factory & obj & _ & _ & _ & _ & _ & Hobjs).
  rewrite Hl in Hobjs.
  assert (handlerObjs w' !! h
          = Some (HttpAuctionHandler.set_logger (Some l) obj)) as Hh.
  { rewrite Hobjs. apply lookup_insert_eq. }
  split_and!.
  - unfold handler_logger. by rewrite Hh.
  - done.
  - unfold handler_logger. simpl. by rewrite Hh.
  - unfold handler_logger. by rewrite (run_keeps_obj calls w' h _ Hh).
Qed.

(** [startRequestLogging] installs a logger that is open and new. *)
Lemma startRequestLogging_installs filename count w :
  let w' := startRequestLogging filename count w in
  ∃ l, logger (this w') = Some l ∧ (l ∉ dom (loggerObjs w)) ∧
       loggerObjs w' !! l = Some (HttpAuctionLogger.mk filename count false).
Proof.
  exists (fresh (dom (loggerObjs w))). split_and!; simpl.
  - done.
  - apply is_fresh.
  - apply lookup_insert_eq.
Qed.

(** [stopRequestLogging] closes the logger object it lets go of; a handler
    bound to that logger refers to the closed object from then on. *)
Lemma stopRequestLogging_closes w l obj :
  logger (this w) = Some l → loggerObjs w !! l = Some obj →
  loggerObjs (stopRequestLogging w) !! l = Some (HttpAuctionLogger.close obj).
Proof.
  intros Hl Hobj. unfold stopRequestLogging. rewrite Hl. simpl.
  by rewrite lookup_alter_eq, Hobj.
Qed.

(** C2: [makeNewHandlerShared] throws "need to initialize handler factory"
    when no factory is installed and "failed to create handler" when the
    factory returns the null pointer, leaving the connector as it was;
    otherwise it returns a handle to a new handler object, which it has added
    to [handlers].  If the connector has a logger, the [logger] field of the
    new handler refers to it and the other fields are as the factory made
    them; if it has none, the whole object is as the factory made it. *)
Theorem makeNewHandlerShared_cases w :
  (handlerFactory (this w) = None →
   makeNewHandlerShared w =
     (Throw (ML.mkException "need to initialize handler factory"), w)) ∧
  (∀ factory,
     handlerFactory (this w) = Some factory → factory () = None →
     makeNewHandlerShared w =
       (Throw (ML.mkException "failed to create handler"), w)) ∧
  (∀ factory obj,
     handlerFactory (this w) = Some factory → factory () = Some obj →
     ∃ h w',
       makeNewHandlerShared w = (Ok h, w') ∧
       (h ∉ dom (handlerObjs w)) ∧
       handlers (this w') = {[h]} ∪ handlers (this w) ∧
       h ∈ handlers (this w') ∧
       logger (this w') = logger (this w) ∧
       (∀ l, logger (this w) = Some l →
             handler_logger w' h = Some l ∧
             handlerObjs w' !! h
             = Some (HttpAuctionHandler.mk
                       (Some l) (HttpAuctionHandler.header obj)
                       (HttpAuctionHandler.peerName obj)
                       (HttpAuctionHandler.wire obj))) ∧
       (logger (this w) = None →
        handler_logger w' h = HttpAuctionHandler.logger obj ∧
        handlerObjs w' !! h = Some obj)).
Proof.
  unfold makeNewHandlerShared. split_and!.
  - by intros ->.
  - by intros factory -> ->.
  - intros factory obj -> ->. eexists _, _. split; [done|]. simpl.
    split_and!.
    + apply is_fresh.
    + done.
    + set_solver.
    + done.
    + intros l ->. unfold handler_logger. simpl.
      rewrite lookup_insert_eq. by split.
    + intros ->. unfold handler_logger. simpl.
      rewrite lookup_insert_eq. by split.
Qed.

(** ** The size of the live set *)

Lemma finishedWithHandler_absent w h :
  h ∉ handlers (this w) → finishedWithHandler h w = w.
Proof.
  intros Hh. unfold finishedWithHandler.
  assert (handlers (this w) ∖ {[h]} = handlers (this w)) as -> by set_solver.
  rewrite set_handlers_same. by destruct w.
Qed.

Lemma tracks_elements w :
  handlers (this w) ⊆ dom (handlerObjs w) →
  tracks (elements (handlers (this w))) w.
Proof.
  intros Hsub. split_and!; [apply NoDup_elements| |done].
  apply set_eq. intros x. by rewrite elem_of_list_to_set, elem_of_elements.
Qed.

Lemma tracks_create live w h w' :
  tracks live w → makeNewHandlerShared w = (Ok h, w') →
  tracks (h :: live) w' ∧
  size (handlers (this w')) = S (size (handlers (this w))).
Proof.
  intros (Hnd & Hset & Hsub) Hmk.
  destruct (makeNewHandlerShared_Ok _ _ _ Hmk)
    as (factory & obj & _ & _ & Hh & Hthis & _ & Hobjs).
  assert (h ∉ handlers (this w)) as Hnew.
  { intros Hin. apply Hsub in Hin. rewrite Hh in Hin.
    by apply (is_fresh (dom (handlerObjs w))). }
  unfold tracks. rewrite Hthis, Hobjs. simpl. split; [split_and!|].
  - apply NoDup_cons. split; [|done].
    intros Hin. apply Hnew. rewrite <- Hset. by apply elem_of_list_to_set.
  - simpl. by rewrite Hset.
  - rewrite dom_insert_L. set_solver.
  - rewrite size_union by set_solver. by rewrite size_singleton.
Qed.

Lemma tracks_release_present live w h :
  tracks live w → h ∈ live →
  tracks (filter (λ x, x ≠ h) live) (finishedWithHandler h w) ∧
  S (size (handlers (this (finishedWithHandler h w))))
  = size (handlers (this w)).
Proof.
  intros (Hnd & Hset & Hsub) Hin. unfold tracks. simpl.
  assert (h ∈ handlers (this w)) as Hreg.
  { rewrite <- Hset. by apply elem_of_list_to_set. }
  split; [split_and!|].
  - by apply NoDup_filter.
  - apply set_eq. intros x.
    rewrite elem_of_list_to_set, list_elem_of_filter, elem_of_difference.
    rewrite <- Hset, elem_of_list_to_set. set_solver.
  - set_solver.
  - pose proof (size_union_alt {[h]} (handlers (this w))) as Hsz.
    rewrite size_singleton in Hsz.
    replace ({[h]} ∪ handlers (this w)) with (handlers (this w)) in Hsz
      by set_solver.
    lia.
Qed.

Lemma tracks_release_absent live w h :
  tracks live w → h ∉ live → finishedWithHandler h w = w.
Proof.
  intros (_ & Hset & _) Hnin. apply finishedWithHandler_absent.
  rewrite <- Hset. by rewrite elem_of_list_to_set.
Qed.

(** Applies the induction hypothesis to the rest of a run that continues
    from [w] with [live] outstanding. *)
Ltac rest_of_run IH w live Htr :=
  specialize (IH w live Htr);
  destruct (run _ w) as [? ?]; simpl in *.

Lemma run_live_count calls : ∀ w live,
  tracks live w →
  (size (handlers (this (run calls w).2))
   + effective_releases live (run calls w).1
   = size (handlers (this w)) + successful_creates (run calls w).1)%nat.
Proof.
  induction calls as [|call calls IH]; intros w live Htr; [simpl; lia|].
  destruct call as [filename count| | |h|f]; simpl.
  - by rest_of_run IH (startRequestLogging filename count w) live Htr.
  - by rest_of_run IH (stopRequestLogging w) live Htr.
  - unfold makeNewHandler.
    destruct (makeNewHandlerShared w) as [[h|e] w1] eqn:Hmk.
    + destruct (tracks_create live w h w1 Htr Hmk) as [Htr1 Hsz].
      rest_of_run IH w1 (h :: live) Htr1. lia.
    + apply makeNewHandlerShared_Throw in Hmk as ->.
      by rest_of_run IH w live Htr.
  - destruct (decide (h ∈ live)) as [Hin|Hin].
    + destruct (tracks_release_present live w h Htr Hin) as [Htr1 Hsz].
      rest_of_run IH (finishedWithHandler h w) (filter (λ x, x ≠ h) live) Htr1.
      rewrite bool_decide_eq_true_2 by done. lia.
    + rewrite (tracks_release_absent live w h Htr Hin).
      rest_of_run IH w live Htr.
      by rewrite bool_decide_eq_false_2.
  - by rest_of_run IH (mkWorld (set_handlerFactory f (this w)) (handlerObjs w)
                               (loggerObjs w)) live Htr.
Qed.

(** C8: starting with an empty live set, after any sequence of calls the
    size of [handlers] is the number of creations that returned a handler
    minus the number of releases whose handler had been created and not yet
    released; that difference is never negative; and releasing a handler that
    is not in the set leaves everything as it was. *)
Theorem live_handler_count (calls : list Call) w :
  handlers (this w) = ∅ →
  let history := (run calls w).1 in
  let w' := (run calls w).2 in
  (effective_releases [] history ≤ successful_creates history)%nat ∧
  size (handlers (this w'))
  = (successful_creates history - effective_releases [] history)%nat ∧
  (∀ h w1, h ∉ handlers (this w1) → finishedWithHandler h w1 = w1).
Proof.
  intros Hempty history w'.
  assert (tracks [] w) as Htr.
  { split_and!; [constructor|by rewrite Hempty|set_solver]. }
  pose proof (run_live_count calls w [] Htr) as Hcount.
  fold history w' in Hcount. rewrite Hempty, size_empty in Hcount.
  split_and!; [lia|lia|]. intros h w1. apply finishedWithHandler_absent.
Qed.

(** ** The default factory *)

Lemma exec_keeps_factory call w :
  assigns_factory call = false →
  handlerFactory (this (exec call w).2) = handlerFactory (this w).
Proof.
  intros Hcall. destruct call; simpl; try done.
  unfold makeNewHandler, makeNewHandlerShared.
  destruct (handlerFactory (this w)) as [factory|] eqn:Hf; [|done].
  by destruct (factory ()).
Qed.

Lemma default_factory_creates w obj :
  handlerFactory (this w) = Some (λ _, Some obj) →
  ∃ h w', makeNewHandlerShared w = (Ok h, w') ∧ h ∈ handlers (this w').
Proof.
  intros Hf. unfold makeNewHandlerShared. rewrite Hf.
  eexists _, _. split; [done|]. simpl. set_solver.
Qed.

Lemma run_default_factory calls : ∀ w obj,
  handlerFactory (this w) = Some (λ _, Some obj) →
  existsb assigns_factory calls = false →
  handlerFactory (this (run calls w).2) = Some (λ _, Some obj) ∧
  ∀ call e, (call, Thrown e) ∉ (run calls w).1.
Proof.
  induction calls as [|call calls IH]; intros w obj Hf Hcalls.
  { split; [done|]. intros call e Hin. by apply elem_of_nil in Hin. }
  simpl in Hcalls. apply orb_false_iff in Hcalls as [Hcall Hcalls].
  pose proof (exec_keeps_factory call w Hcall) as Hkeep.
  assert (∀ e, (exec call w).1 ≠ Thrown e) as Hok.
  { intros e. destruct call; simpl; try done.
    destruct (default_factory_creates w obj Hf) as (h & w' & Hmk & _).
    unfold makeNewHandler. by rewrite Hmk. }
  simpl. destruct (exec call w) as [o w1]. simpl in *.
  rewrite <- Hkeep in Hf. destruct (IH w1 obj Hf Hcalls) as [IHf IHh].
  destruct (run calls w1) as [history w2]. simpl in *.
  split; [done|]. intros call' e [Heq|Hin]%elem_of_cons.
  - injection Heq as _ <-. by apply (Hok e).
  - by apply (IHh call' e).
Qed.

(** C10: the constructor installs a factory that returns a new default
    handler on every call.  On a constructed connector, and after any calls
    that do not assign [handlerFactory], no call has thrown and
    [makeNewHandlerShared] returns a handler registered in [handlers]: neither
    of its two [throw] statements is reached. *)
Theorem constructed_connector_creates (ep : HttpEndpoint)
    (storage : HttpExchangeConnector)
    (hobjs : gmap nat HttpAuctionHandler.t)
    (lobjs : gmap nat HttpAuctionLogger.t) (calls : list Call) :
  let w0 := mkWorld (HttpExchangeConnector_ctor ep storage) hobjs lobjs in
  existsb assigns_factory calls = false →
  handlerFactory (this w0) = Some (λ _, Some HttpAuctionHandler_new) ∧
  (∀ call e, (call, Thrown e) ∉ (run calls w0).1) ∧
  ∃ h w', makeNewHandlerShared (run calls w0).2 = (Ok h, w') ∧
          h ∈ handlers (this w').
Proof.
  intros w0 Hcalls.
  assert (handlerFactory (this w0) = Some (λ _, Some HttpAuctionHandler_new))
    as Hf by done.
  destruct (run_default_factory calls w0 _ Hf Hcalls) as [Hf' Hhist].
  split_and!; [done|done|]. by apply (default_factory_creates _ _ Hf').
Qed.

(** ** The ping-time table *)

(** C3: [getRoundTripTimeMs] returns the entry of [pingTimesByHostMs] for the
    connection's peer name when there is one and [pingTimeUnknownHostsMs]
    when there is none, and leaves the connector, hence the table, as it
    was. *)
Theorem getRoundTripTimeMs_lookup c (connection : HttpAuctionHandler.t)
    (header : HttpHeader) :
  let peer := HttpAuctionHandler.peerName connection in
  (∀ ms, pingTimesByHostMs c !! peer = Some ms →
         (getRoundTripTimeMs c connection header).1 = ms) ∧
  (pingTimesByHostMs c !! peer = None →
   (getRoundTripTimeMs c connection header).1 = pingTimeUnknownHostsMs c) ∧
  (getRoundTripTimeMs c connection header).2 = c ∧
  pingTimesByHostMs (getRoundTripTimeMs c connection header).2
  = pingTimesByHostMs c.
Proof.
  intros peer. unfold getRoundTripTimeMs. fold peer.
  destruct (pingTimesByHostMs c !! peer) as [ms|]; simpl.
  - split_and!; [by intros ? [= <-]|done..].
  - by split_and!.
Qed.

(** ** Default responses *)

(** C4: the base [getDroppedAuctionResponse] and [getErrorResponse] give what
    the connector's [getResponse] (the final overrider) gives for the same
    connection, the header stored in the connection and the same auction,
    whatever the reason or the message; a thrown exception is passed on
    unchanged. *)
Theorem default_responses_delegate (ov : Overrides) c
    (connection : HttpAuctionHandler.t) (auction : Auction)
    (reason errorMessage : string) :
  getDroppedAuctionResponse ov c connection auction reason
  = virtual_getResponse ov c connection (HttpAuctionHandler.header connection)
                        auction ∧
  getErrorResponse ov c connection auction errorMessage
  = virtual_getResponse ov c connection (HttpAuctionHandler.header connection)
                        auction.
Proof. done. Qed.

(** Without an override both are the base [getResponse], which throws. *)
Lemma default_responses_base c (connection : HttpAuctionHandler.t)
    (auction : Auction) (reason : string) :
  getDroppedAuctionResponse (mkOverrides None) c connection auction reason
  = Throw (ML.mkException
             "need to override HttpExchangeConnector::getResponse") ∧
  getErrorResponse (mkOverrides None) c connection auction reason
  = Throw (ML.mkException
             "need to override HttpExchangeConnector::getResponse").
Proof. done. Qed.

(** ** Unknown requests *)

Lemma sent_since_app (connection : HttpAuctionHandler.t) logger header peer
    (calls : list WireCall) :
  sent_since connection
    (HttpAuctionHandler.mk logger header peer
       (HttpAuctionHandler.wire connection ++ calls)) = calls.
Proof. unfold sent_since. simpl. apply drop_app_length. Qed.

(** C5: for a request whose resource is "/ready", whatever its verb, its
    payload and the connector's configuration, [handleUnknownRequest] puts
    exactly one response on the wire: status 200, content type "text/plain",
    body "1". *)
Theorem handleUnknownRequest_ready c (connection : HttpAuctionHandler.t)
    (header : HttpHeader) (payload : string) :
  resource header = "/ready" →
  sent_since connection (handleUnknownRequest c connection header payload)
  = [PutResponseOnWire (mkHttpResponse 200 "text/plain" "1")].
Proof.
  intros Hres. unfold handleUnknownRequest. rewrite Hres. simpl.
  apply sent_since_app.
Qed.

Lemma append_empty_r (s : string) : s +:+ "" = s.
Proof.
  induction s as [|a s IH]; [done|].
  change (String a s +:+ "") with (String a (s +:+ "")). by rewrite IH.
Qed.

(** C6: for a request whose resource is not "/ready",
    [handleUnknownRequest] makes exactly one call on the connection,
    [sendErrorResponse], with the message "unknown resource " followed by
    the resource, so the message contains the resource; it puts no response
    on the wire itself. *)
Theorem handleUnknownRequest_other c (connection : HttpAuctionHandler.t)
    (header : HttpHeader) (payload : string) :
  resource header ≠ "/ready" →
  let after := handleUnknownRequest c connection header payload in
  ∃ msg,
    sent_since connection after = [SendErrorResponse msg] ∧
    msg = "unknown resource " +:+ resource header ∧
    contains msg (resource header) ∧
    ∀ r, PutResponseOnWire r ∉ sent_since connection after.
Proof.
  intros Hres after. subst after. unfold handleUnknownRequest.
  apply String.eqb_neq in Hres. rewrite Hres.
  exists ("unknown resource " +:+ resource header).
  unfold HttpAuctionHandler.sendErrorResponse. rewrite sent_since_app.
  split_and!; [done|done| |].
  - exists "unknown resource ", "". by rewrite append_empty_r.
  - intros r Hin. apply list_elem_of_singleton in Hin. discriminate.
Qed.

(** ** Start-up *)

(** C9: [start] first calls [init] with the configured port, host, thread
    count, name-lookup flag and backlog, whether or not that call throws;
    when [init] returns, [makeRealTime] is called if and only if
    [realTimePriority] is greater than -1, that is, not negative, then once,
    after [init], with that priority. *)
Theorem start_calls c :
  let init := Init (listenPort c) (bindHost c) (numThreads c) true
                   (performNameLookup c) (backlog c) in
  (∀ initThrows, head (start initThrows c).2 = Some init) ∧
  (start None c).1 = Ok () ∧
  (∀ p, MakeRealTime p ∈ (start None c).2
        ↔ realTimePriority c > -1 ∧ p = realTimePriority c) ∧
  (realTimePriority c > -1 ↔ ¬ realTimePriority c < 0) ∧
  (realTimePriority c > -1 →
   (start None c).2 = [init; MakeRealTime (realTimePriority c)]) ∧
  (realTimePriority c < 0 → (start None c).2 = [init]).
Proof.
  intros init. unfold start. fold init. split_and!.
  - intros [e|]; [done|]. by case_bool_decide.
  - by case_bool_decide.
  - intros p. case_bool_decide as Hp; simpl.
    + rewrite !elem_of_cons, elem_of_nil. split.
      * intros [Heq|[Heq|[]]]; [discriminate|]. by injection Heq as ->.
      * intros [_ ->]. right. by left.
    + rewrite elem_of_cons, elem_of_nil. split.
      * intros [Heq|[]]. discriminate.
      * intros [Hgt _]. done.
  - lia.
  - intros Hp. by rewrite bool_decide_eq_true_2.
  - intros Hp. rewrite bool_decide_eq_false_2; [done|lia].
Qed.

(** ** The status report *)

Lemma members_get_set_eq k (v : Json) ms :
  members_get k (members_set k v ms) = Some v.
Proof.
  induction ms as [|[k' v'] ms IH]; simpl.
  - by rewrite String.eqb_refl.
  - destruct (String.eqb k k') eqn:Hk; simpl.
    + by rewrite String.eqb_refl.
    + by rewrite Hk.
Qed.

Lemma members_get_set_ne k k' (v : Json) ms :
  k ≠ k' → members_get k' (members_set k v ms) = members_get k' ms.
Proof.
  intros Hne. induction ms as [|[k'' v''] ms IH]; simpl.
  - apply not_eq_sym, String.eqb_neq in Hne. by rewrite Hne.
  - destruct (String.eqb k k'') eqn:Hk; simpl.
    + apply String.eqb_eq in Hk as <-.
      apply not_eq_sym, String.eqb_neq in Hne. by rewrite Hne.
    + by rewrite IH.
Qed.

Lemma Json_get_at_eq k f (j : Json) :
  Json_get k (Json_at k f j) = f (Json_get k j).
Proof. unfold Json_at, Json_get. simpl. by rewrite members_get_set_eq. Qed.

Lemma Json_get_at_ne k k' f (j : Json) :
  k ≠ k' → Json_get k' (Json_at k f j) = Json_get k' j.
Proof.
  intros Hne. unfold Json_at, Json_get at 1. simpl.
  by rewrite members_get_set_ne.
Qed.

Lemma Json_get_assign_eq k v (j : Json) : Json_get k (Json_assign k v j) = v.
Proof. apply Json_get_at_eq. Qed.

Lemma Json_get_assign_ne k k' v (j : Json) :
  k ≠ k' → Json_get k' (Json_assign k v j) = Json_get k' j.
Proof. apply Json_get_at_ne. Qed.

Lemma add_hosts_other k (peerCounts : list (string * Z)) : ∀ result,
  k ≠ "hostConnections" →
  Json_get k (foldl add_host result peerCounts) = Json_get k result.
Proof.
  induction peerCounts as [|cnt peerCounts IH]; intros result Hk; [done|].
  simpl. rewrite IH by done. unfold add_host.
  by rewrite Json_get_at_ne.
Qed.

Lemma add_hosts_peer (peerCounts : list (string * Z)) : ∀ result peer,
  NoDup peerCounts.*1 →
  Json_get peer (Json_get "hostConnections" (foldl add_host result peerCounts))
  = match (list_to_map peerCounts : gmap string Z) !! peer with
    | Some n => JInt n
    | None => Json_get peer (Json_get "hostConnections" result)
    end.
Proof.
  induction peerCounts as [|[k n] peerCounts IH]; intros result peer Hnd.
  { done. }
  rewrite fmap_cons in Hnd. apply NoDup_cons in Hnd as [Hk Hnd].
  cbn [foldl]. rewrite IH by done. rewrite list_to_map_cons.
  unfold add_host. cbn [fst snd]. rewrite Json_get_at_eq.
  destruct (decide (k = peer)) as [<-|Hne].
  - rewrite lookup_insert_eq.
    rewrite (not_elem_of_list_to_map_1 _ _ Hk).
    apply Json_get_assign_eq.
  - rewrite lookup_insert_ne by done.
    by rewrite Json_get_assign_ne.
Qed.

(** C7: the report gives the connection count as [numConnections], the count
    of connections serving a request as [activeConnections], their quotient
    as [connectionLoadFactor], which is zero when there is no connection, and
    under [hostConnections] the count of every peer that has connections
    (and no entry for any other peer). *)
Theorem getServiceStatus_report c :
  let status := getServiceStatus c in
  let total := numConnections (endpoint c) in
  let active := numServingRequest c in
  Json_get "numConnections" status = JInt total ∧
  Json_get "activeConnections" status = JInt active ∧
  (total = 0 → Json_get "connectionLoadFactor" status = JReal (of_int 0)) ∧
  (total ≠ 0 →
   Json_get "connectionLoadFactor" status
   = JReal (fdiv (of_int active) (of_int total))) ∧
  (∀ peer,
     Json_get peer (Json_get "hostConnections" status)
     = match numConnectionsByHost (endpoint c) !! peer with
       | Some n => JInt n
       | None => JNull
       end).
Proof.
  intros status total active. subst status. unfold getServiceStatus.
  fold total active.
  split_and!.
  - rewrite add_hosts_other by done.
    rewrite !Json_get_assign_ne by done. apply Json_get_assign_eq.
  - rewrite add_hosts_other by done.
    rewrite Json_get_assign_ne by done. apply Json_get_assign_eq.
  - intros Hzero. rewrite add_hosts_other by done.
    rewrite Json_get_assign_eq. unfold xdiv.
    by rewrite bool_decide_eq_true_2.
  - intros Hnz. rewrite add_hosts_other by done.
    rewrite Json_get_assign_eq. unfold xdiv.
    by rewrite bool_decide_eq_false_2.
  - intros peer. rewrite add_hosts_peer by apply NoDup_fst_map_to_list.
    rewrite list_to_map_to_list.
    destruct (numConnectionsByHost (endpoint c) !! peer); [done|].
    by rewrite !Json_get_assign_ne by done.
Qed.

(** With no connection at all the report has no [hostConnections] member. *)
Lemma getServiceStatus_no_hosts c :
  numConnectionsByHost (endpoint c) = ∅ →
  Json_get "hostConnections" (getServiceStatus c) = JNull.
Proof.
  intros Hempty. unfold getServiceStatus. rewrite Hempty, map_to_list_empty.
  done.
Qed.

(** * Further properties of the connector *)

(** ** Construction, configuration and start-up together *)

(** A connector started as constructed asks the endpoint for port 10001 on
    every interface, eight threads, name lookup and the default backlog, and
    does not ask for real-time scheduling. *)
Theorem constructed_connector_start (ep : HttpEndpoint)
    (storage : HttpExchangeConnector) :
  start None (HttpExchangeConnector_ctor ep storage)
  = (Ok (), [Init (PortRange_of_int 10001) "*" 8 true true DEF_BACKLOG]).
Proof. done. Qed.

(** After [configureHttp], [start] hands [init] the values just configured,
    and asks for real-time scheduling with the configured priority exactly
    when that priority is not negative. *)
Theorem configureHttp_then_start (threads : Z) (port : PortRange)
    (host : string) (lookup : bool) (bl : Z) (res vb : string) (prio : Z) c :
  let c' := configureHttp threads port host lookup bl res vb prio c in
  let init := Init port host threads true lookup bl in
  (0 ≤ prio → start None c' = (Ok (), [init; MakeRealTime prio])) ∧
  (prio < 0 → start None c' = (Ok (), [init])).
Proof.
  intros c' init. unfold start. simpl. fold init. split; intros Hp.
  - rewrite bool_decide_eq_true_2; [done|lia].
  - rewrite bool_decide_eq_false_2; [done|lia].
Qed.

(** When [init] throws, [start] passes the exception on and makes no other
    call on the endpoint, whatever the configured priority. *)
Lemma start_init_throws (e : ML.Exception) c :
  (start (Some e) c).1 = Throw e ∧
  length (start (Some e) c).2 = 1%nat ∧
  ∀ p, MakeRealTime p ∉ (start (Some e) c).2.
Proof.
  split_and!; [done|done|]. intros p Hin. simpl in Hin.
  apply list_elem_of_singleton in Hin. discriminate.
Qed.

(** Until a ping-time table is configured, the round-trip time of every peer
    is the constructor's default of 20 ms. *)
Theorem constructed_connector_round_trip (ep : HttpEndpoint)
    (storage : HttpExchangeConnector) (connection : HttpAuctionHandler.t)
    (header : HttpHeader) :
  (getRoundTripTimeMs (HttpExchangeConnector_ctor ep storage)
     connection header).1 = of_int 20.
Proof. unfold getRoundTripTimeMs. simpl. by rewrite lookup_empty. Qed.

(** ** Releasing handlers *)

Lemma set_handlers_twice (hs hs' : gset nat) c :
  set_handlers hs (set_handlers hs' c) = set_handlers hs c.
Proof. done. Qed.

(** After [finishedWithHandler h] the handler [h] is not registered, every
    other handler is registered exactly if it was before, and the logger and
    the factory of the connector are as before. *)
Theorem finishedWithHandler_membership w h :
  let w' := finishedWithHandler h w in
  (h ∉ handlers (this w')) ∧
  (∀ h', h' ≠ h → (h' ∈ handlers (this w') ↔ h' ∈ handlers (this w))) ∧
  logger (this w') = logger (this w) ∧
  handlerFactory (this w') = handlerFactory (this w).
Proof.
  intros w'. subst w'. simpl. split_and!; [set_solver|set_solver|done|done].
Qed.

(** Releasing the same handler a second time changes nothing. *)
Theorem finishedWithHandler_twice w h :
  finishedWithHandler h (finishedWithHandler h w) = finishedWithHandler h w.
Proof. apply finishedWithHandler_absent. simpl. set_solver. Qed.

(** Creating a handler and releasing it again gives back the connector as it
    was, provided the registered handlers are objects in the store. *)
Theorem create_then_release w h w' :
  handlers (this w) ⊆ dom (handlerObjs w) →
  makeNewHandlerShared w = (Ok h, w') →
  this (finishedWithHandler h w') = this w.
Proof.
  intros Hsub Hmk.
  destruct (makeNewHandlerShared_Ok _ _ _ Hmk)
    as (factory & obj & _ & _ & Hh & Hthis & _ & _).
  assert (h ∉ handlers (this w)) as Hnew.
  { intros Hin. apply Hsub in Hin. rewrite Hh in Hin.
    by apply (is_fresh (dom (handlerObjs w))). }
  simpl. rewrite Hthis, set_handlers_twice. simpl.
  assert (({[h]} ∪ handlers (this w)) ∖ {[h]} = handlers (this w)) as ->
    by set_solver.
  apply set_handlers_same.
Qed.

(** ** The live set, handler by handler *)

Lemma filter_ne_absent (h : nat) (live : list nat) :
  h ∉ live → filter (λ x, x ≠ h) live = live.
Proof.
  induction live as [|x live IH]; intros Hnin; [done|].
  apply not_elem_of_cons in Hnin as [Hne Hnin].
  rewrite filter_cons_True by done. by rewrite IH.
Qed.

Lemma run_tracks calls : ∀ w live,
  tracks live w → tracks (outstanding live (run calls w).1) (run calls w).2.
Proof.
  induction calls as [|call calls IH]; intros w live Htr; [done|].
  destruct call as [filename count| | |h|f]; simpl.
  - by rest_of_run IH (startRequestLogging filename count w) live Htr.
  - by rest_of_run IH (stopRequestLogging w) live Htr.
  - unfold makeNewHandler.
    destruct (makeNewHandlerShared w) as [[h|e] w1] eqn:Hmk.
    + destruct (tracks_create live w h w1 Htr Hmk) as [Htr1 _].
      by rest_of_run IH w1 (h :: live) Htr1.
    + apply makeNewHandlerShared_Throw in Hmk as ->.
      by rest_of_run IH w live Htr.
  - destruct (decide (h ∈ live)) as [Hin|Hin].
    + destruct (tracks_release_present live w h Htr Hin) as [Htr1 _].
      by rest_of_run IH (finishedWithHandler h w)
                     (filter (λ x, x ≠ h) live) Htr1.
    + rewrite (tracks_release_absent live w h Htr Hin).
      rest_of_run IH w live Htr.
      by rewrite (filter_ne_absent h live Hin).
  - by rest_of_run IH (mkWorld (set_handlerFactory f (this w)) (handlerObjs w)
                               (loggerObjs w)) live Htr.
Qed.

(** Splits a history at a creation: either the creation is its first entry,
    or it lies in the rest, to which the induction hypothesis applies. *)
Ltac split_history IH w live Htr pre Heq :=
  specialize (IH w live Htr);
  destruct (run _ w) as [? ?]; simpl in *;
  destruct pre as [|? pre]; simpl in Heq;
  [discriminate Heq|injection Heq as <- Heq; simpl; by eapply IH].

Lemma run_create_not_outstanding calls : ∀ w live,
  tracks live w →
  ∀ pre h post,
    (run calls w).1 = pre ++ (CallMakeNewHandler, ReturnedHandler h) :: post →
    h ∉ outstanding live pre.
Proof.
  induction calls as [|call calls IH]; intros w live Htr pre h post Heq.
  { simpl in Heq. by destruct pre. }
  destruct call as [filename count| | |h0|f]; simpl in Heq.
  - split_history IH (startRequestLogging filename count w) live Htr pre Heq.
  - split_history IH (stopRequestLogging w) live Htr pre Heq.
  - unfold makeNewHandler in Heq.
    destruct (makeNewHandlerShared w) as [[h1|e] w1] eqn:Hmk.
    + destruct (tracks_create live w h1 w1 Htr Hmk) as [Htr1 _].
      specialize (IH w1 (h1 :: live) Htr1).
      destruct (run calls w1) as [history w2]. simpl in *.
      destruct pre as [|p pre]; simpl in Heq.
      * injection Heq as <- _. destruct Htr1 as [Hnd _].
        by apply NoDup_cons in Hnd as [Hnew _].
      * injection Heq as <- Heq. simpl. by eapply IH.
    + apply makeNewHandlerShared_Throw in Hmk as ->.
      split_history IH w live Htr pre Heq.
  - destruct (decide (h0 ∈ live)) as [Hin|Hin].
    + destruct (tracks_release_present live w h0 Htr Hin) as [Htr1 _].
      split_history IH (finishedWithHandler h0 w)
                    (filter (λ x, x ≠ h0) live) Htr1 pre Heq.
    + rewrite (tracks_release_absent live w h0 Htr Hin) in Heq.
      specialize (IH w live Htr).
      destruct (run calls w) as [history w2]. simpl in *.
      destruct pre as [|p pre]; simpl in Heq; [discriminate Heq|].
      injection Heq as <- Heq. simpl.
      rewrite (filter_ne_absent h0 live Hin). by eapply IH.
  - split_history IH (mkWorld (set_handlerFactory f (this w)) (handlerObjs w)
                              (loggerObjs w)) live Htr pre Heq.
Qed.

(** Starting with an empty live set, after any sequence of calls the
    registered handlers are exactly those that a creation returned and no
    later release named; a creation never returns a handler that is
    outstanding at that moment, so the outstanding handlers are pairwise
    different; and each registered handler is an object in the store. *)
Theorem live_set_is_outstanding (calls : list Call) w :
  handlers (this w) = ∅ →
  let history := (run calls w).1 in
  let w' := (run calls w).2 in
  (∀ h, h ∈ handlers (this w') ↔ h ∈ outstanding [] history) ∧
  (∀ pre h post,
     history = pre ++ (CallMakeNewHandler, ReturnedHandler h) :: post →
     h ∉ outstanding [] pre) ∧
  NoDup (outstanding [] history) ∧
  handlers (this w') ⊆ dom (handlerObjs w').
Proof.
  intros Hempty history w'.
  assert (tracks [] w) as Htr.
  { split_and!; [constructor|by rewrite Hempty|set_solver]. }
  destruct (run_tracks calls w [] Htr) as (Hnd & Hset & Hsub).
  fold history w' in Hnd, Hset, Hsub. split_and!; [| |done|done].
  - intros h. by rewrite <- Hset, elem_of_list_to_set.
  - intros pre h post Heq.
    by apply (run_create_not_outstanding calls w [] Htr pre h post).
Qed.

(** ** Loggers and handlers *)

Lemma set_logger_None_same c : logger c = None → set_logger None c = c.
Proof. destruct c. simpl. by intros ->. Qed.

Lemma stopRequestLogging_no_logger w :
  logger (this w) = None → stopRequestLogging w = w.
Proof.
  intros Hl. unfold stopRequestLogging. rewrite Hl.
  rewrite set_logger_None_same by done. by destruct w.
Qed.

(** [stopRequestLogging] changes nothing when no logger is installed, and in
    every case a second call right after the first changes nothing. *)
Theorem stopRequestLogging_twice w :
  (logger (this w) = None → stopRequestLogging w = w) ∧
  stopRequestLogging (stopRequestLogging w) = stopRequestLogging w.
Proof.
  split; [apply stopRequestLogging_no_logger|].
  by apply stopRequestLogging_no_logger.
Qed.

(** After [stopRequestLogging], a handler that was bound to the installed
    logger still refers to it, and the object it refers to is now closed. *)
Theorem stopRequestLogging_closes_bound_logger w l
    (obj : HttpAuctionLogger.t) h w' :
  logger (this w) = Some l →
  loggerObjs w !! l = Some obj →
  makeNewHandlerShared w = (Ok h, w') →
  handler_logger (stopRequestLogging w') h = Some l ∧
  loggerObjs (stopRequestLogging w') !! l
  = Some (HttpAuctionLogger.mk (HttpAuctionLogger.filename obj)
                               (HttpAuctionLogger.count obj) true).
Proof.
  intros Hl Hobj Hmk.
  destruct (makeNewHandlerShared_Ok _ _ _ Hmk)
    as (factory & new & _ & _ & _ & Hthis & Hlogs & Hobjs).
  rewrite Hl in Hobjs. split.
  - unfold handler_logger. simpl. rewrite Hobjs.
    by rewrite lookup_insert_eq.
  - assert (logger (this w') = Some l) as Hl' by by rewrite Hthis.
    rewrite <- Hlogs in Hobj.
    by rewrite (stopRequestLogging_closes w' l obj Hl' Hobj).
Qed.

(** [startRequestLogging] with a logger already installed puts a new, open
    logger object in its place and does not close the old one: a handler
    bound to the old logger still refers to it, in the state it had; the
    registry is as before. *)
Theorem startRequestLogging_replaces w l (obj : HttpAuctionLogger.t) h
    (filename : string) (count : Z) :
  logger (this w) = Some l →
  loggerObjs w !! l = Some obj →
  handler_logger w h = Some l →
  let w' := startRequestLogging filename count w in
  ∃ l', logger (this w') = Some l' ∧ l' ≠ l ∧
        loggerObjs w' !! l'
        = Some (HttpAuctionLogger.mk filename count false) ∧
        handler_logger w' h = Some l ∧
        loggerObjs w' !! l = Some obj ∧
        handlers (this w') = handlers (this w).
Proof.
  intros Hl Hobj Hh w'. subst w'. simpl.
  assert (fresh (dom (loggerObjs w)) ≠ l) as Hne.
  { intros Heq. apply (is_fresh (dom (loggerObjs w))). rewrite Heq.
    apply elem_of_dom. by exists obj. }
  exists (fresh (dom (loggerObjs w))). split_and!; try done.
  - apply lookup_insert_eq.
  - by rewrite lookup_insert_ne.
Qed.

Lemma exec_logger_open call w : logger_open w → logger_open (exec call w).2.
Proof.
  intros Hopen. destruct call as [filename count| | |h|f]; simpl.
  - intros l [= <-]. eexists. split; [apply lookup_insert_eq|done].
  - intros l [=].
  - unfold makeNewHandler.
    destruct (makeNewHandlerShared w) as [[h|e] w1] eqn:Hmk; simpl.
    + destruct (makeNewHandlerShared_Ok _ _ _ Hmk)
        as (factory & obj & _ & _ & _ & Hthis & Hlogs & _).
      intros l Hl. rewrite Hlogs. apply Hopen. by rewrite Hthis in Hl.
    + by apply makeNewHandlerShared_Throw in Hmk as ->.
  - done.
  - done.
Qed.

(** If the installed logger, if any, is open to begin with, then after any
    sequence of calls the installed logger, if any, is open: a handler is
    never bound to a logger that was closed before the handler was made. *)
Theorem installed_logger_stays_open (calls : list Call) w :
  logger_open w →
  logger_open (run calls w).2 ∧
  ∀ h w' l,
    makeNewHandlerShared (run calls w).2 = (Ok h, w') →
    logger (this (run calls w).2) = Some l →
    handler_logger w' h = Some l ∧
    ∃ obj, loggerObjs w' !! l = Some obj ∧
           HttpAuctionLogger.closed obj = false.
Proof.
  intros Hopen.
  assert (logger_open (run calls w).2) as Hrun.
  { revert w Hopen. induction calls as [|call calls IH]; intros w Hopen.
    - done.
    - simpl. pose proof (exec_logger_open call w Hopen) as Hstep.
      destruct (exec call w) as [o w1]. specialize (IH w1 Hstep).
      by destruct (run calls w1) as [history w2]. }
  split; [done|]. intros h w' l Hmk Hl.
  destruct (makeNewHandlerShared_Ok _ _ _ Hmk)
    as (factory & obj & _ & _ & _ & _ & Hlogs & Hobjs).
  rewrite Hl in Hobjs. split.
  - unfold handler_logger. rewrite Hobjs. by rewrite lookup_insert_eq.
  - rewrite Hlogs. by apply Hrun.
Qed.

(** No call on the registry or on request logging changes a handler object
    that exists: a handler made without a logger is not bound to a logger
    started later, and releasing a handler leaves its object as it is. *)
Theorem existing_handler_unchanged (calls : list Call) w h :
  is_Some (handlerObjs w !! h) →
  handlerObjs (run calls w).2 !! h = handlerObjs w !! h ∧
  handler_logger (run calls w).2 h = handler_logger w h.
Proof.
  intros [obj Hobj]. unfold handler_logger.
  by rewrite (run_keeps_obj calls w h obj Hobj), Hobj.
Qed.

(** ** Unknown requests, continued *)

(** [handleUnknownRequest] always makes exactly one call on the connection,
    after those the connection had received, and leaves the connection's
    logger, stored header and peer as they were. *)
Theorem handleUnknownRequest_one_call c (connection : HttpAuctionHandler.t)
    (header : HttpHeader) (payload : string) :
  let after := handleUnknownRequest c connection header payload in
  (∃ call, HttpAuctionHandler.wire after
           = HttpAuctionHandler.wire connection ++ [call]) ∧
  HttpAuctionHandler.logger after = HttpAuctionHandler.logger connection ∧
  HttpAuctionHandler.header after = HttpAuctionHandler.header connection ∧
  HttpAuctionHandler.peerName after = HttpAuctionHandler.peerName connection.
Proof.
  intros after. subst after. unfold handleUnknownRequest.
  destruct (String.eqb (resource header) "/ready"); simpl;
    split_and!; try done; by eexists.
Qed.

(** What [handleUnknownRequest] does to a connection is decided by the
    requested resource alone: two requests get the same reply exactly when
    they name the same resource, whatever the connector, the verb and the
    payload.  In particular different unknown resources get different error
    messages. *)
Theorem handleUnknownRequest_by_resource c1 c2
    (connection : HttpAuctionHandler.t) (header1 header2 : HttpHeader)
    (payload1 payload2 : string) :
  handleUnknownRequest c1 connection header1 payload1
  = handleUnknownRequest c2 connection header2 payload2
  ↔ resource header1 = resource header2.
Proof.
  unfold handleUnknownRequest. split.
  - destruct (String.eqb (resource header1) "/ready") eqn:H1;
      destruct (String.eqb (resource header2) "/ready") eqn:H2.
    + apply String.eqb_eq in H1, H2. congruence.
    + intros [= Heq]. apply app_inv_head in Heq. discriminate.
    + intros [= Heq]. apply app_inv_head in Heq. discriminate.
    + intros [= Heq]. apply app_inv_head in Heq.
      assert (SendErrorResponse ("unknown resource " +:+ resource header1)
              = SendErrorResponse ("unknown resource " +:+ resource header2))
        as Hmsg by congruence.
      assert (∀ a b, SendErrorResponse a = SendErrorResponse b → a = b)
        as Hinj by (intros a b; congruence).
      apply Hinj in Hmsg.
      by apply (inj (String.app "unknown resource ")) in Hmsg.
  - by intros ->.
Qed.

(** ** The status report, continued *)

(** The report has a [hostConnections] member exactly when some peer has a
    connection count: with an empty breakdown the member is missing, not an
    empty object. *)
Theorem getServiceStatus_hostConnections c :
  Json_get "hostConnections" (getServiceStatus c) = JNull
  ↔ numConnectionsByHost (endpoint c) = ∅.
Proof.
  split.
  - intros Hnull. apply map_empty. intros peer.
    destruct (numConnectionsByHost (endpoint c) !! peer) as [n|] eqn:Hpeer;
      [exfalso|done].
    assert (Json_get peer (Json_get "hostConnections" (getServiceStatus c))
            = JInt n) as Hget.
    { unfold getServiceStatus.
      rewrite add_hosts_peer by apply NoDup_fst_map_to_list.
      by rewrite list_to_map_to_list, Hpeer. }
    rewrite Hnull in Hget. discriminate.
  - apply getServiceStatus_no_hosts.
Qed.

(** ** What the registry and logging calls leave alone *)

Lemma exec_settings call w : settings (this (exec call w).2) = settings (this w).
Proof.
  destruct call; simpl; try done.
  unfold makeNewHandler, makeNewHandlerShared.
  destruct (handlerFactory (this w)) as [factory|]; [|done].
  by destruct (factory ()).
Qed.

Lemma run_settings calls : ∀ w,
  settings (this (run calls w).2) = settings (this w).
Proof.
  induction calls as [|call calls IH]; intros w; [done|].
  simpl. pose proof (exec_settings call w) as Hstep.
  destruct (exec call w) as [o w1]. specialize (IH w1).
  destruct (run calls w1) as [history w2]. simpl in *. congruence.
Qed.

(** No sequence of creations, releases, logging changes and factory
    assignments changes what [start] asks of the endpoint, the round-trip
    time of any peer or the status report. *)
Theorem registry_calls_keep_settings (calls : list Call) w :
  let c' := this (run calls w).2 in
  (∀ initThrows, start initThrows c' = start initThrows (this w)) ∧
  (∀ connection header,
     (getRoundTripTimeMs c' connection header).1
     = (getRoundTripTimeMs (this w) connection header).1) ∧
  getServiceStatus c' = getServiceStatus (this w).
Proof.
  intros c'. pose proof (run_settings calls w) as Hset. fold c' in Hset.
  unfold settings in Hset. injection Hset as Hep Hth Hrt Hport Hhost Hlook Hbl
    _ _ Hping Hunk Hserv _.
  split_and!.
  - intros initThrows. unfold start.
    by rewrite Hth, Hrt, Hport, Hhost, Hlook, Hbl.
  - intros connection header. unfold getRoundTripTimeMs.
    rewrite Hping, Hunk. by destruct (pingTimesByHostMs (this w) !! _).
  - unfold getServiceStatus, numServingRequest. by rewrite Hep, Hserv.
Qed.

End Properties.

(** * The properties on concrete objects *)

#[local] Existing Instance Sample.externals.

Lemma handler_keeps_bound_logger_witness :
  logger (this Sample.logging_world) = Some 0%nat ∧
  makeNewHandlerShared Sample.logging_world
  = (Ok 0%nat, (makeNewHandlerShared Sample.logging_world).2) ∧
  handler_logger
    (run Sample.later_calls (makeNewHandlerShared Sample.logging_world).2).2
    0%nat = Some 0%nat.
Proof.
  split; [reflexivity|]. split; [reflexivity|].
  apply (handler_keeps_bound_logger Sample.logging_world 0%nat 0%nat
           (makeNewHandlerShared Sample.logging_world).2 Sample.later_calls);
    reflexivity.
Defined.

Lemma makeNewHandlerShared_cases_witness :
  makeNewHandlerShared Sample.world_no_factory
  = (Throw (ML.mkException "need to initialize handler factory"),
     Sample.world_no_factory) ∧
  makeNewHandlerShared Sample.world_null_factory
  = (Throw (ML.mkException "failed to create handler"),
     Sample.world_null_factory) ∧
  (∃ h w',
     makeNewHandlerShared Sample.logging_world = (Ok h, w') ∧
     h ∈ handlers (this w') ∧
     handler_logger w' h = Some 0%nat) ∧
  (∃ h w',
     makeNewHandlerShared Sample.world = (Ok h, w') ∧
     h ∈ handlers (this w') ∧
     handler_logger w' h = None).
Proof.
  split_and!.
  - apply (proj1 (makeNewHandlerShared_cases Sample.world_no_factory)).
    reflexivity.
  - apply (proj1 (proj2 (makeNewHandlerShared_cases
                           Sample.world_null_factory)) (λ _, None));
      reflexivity.
  - destruct (proj2 (proj2 (makeNewHandlerShared_cases Sample.logging_world))
                (λ _, Some HttpAuctionHandler_new) HttpAuctionHandler_new
                eq_refl eq_refl)
      as (h & w' & Hmk & _ & _ & Hin & _ & Hlog & _).
    exists h, w'. split_and!; [exact Hmk|exact Hin|].
    apply (proj1 (Hlog 0%nat eq_refl)).
  - destruct (proj2 (proj2 (makeNewHandlerShared_cases Sample.world))
                (λ _, Some HttpAuctionHandler_new) HttpAuctionHandler_new
                eq_refl eq_refl)
      as (h & w' & Hmk & _ & _ & Hin & _ & _ & Hnone).
    exists h, w'. split_and!; [exact Hmk|exact Hin|].
    apply (proj1 (Hnone eq_refl)).
Defined.

Lemma getRoundTripTimeMs_lookup_witness :
  (getRoundTripTimeMs Sample.busy_connector
     (Sample.connection "10.0.0.1" "/bid") (mkHttpHeader "POST" "/bid")).1
  = inject_Z 35 ∧
  (getRoundTripTimeMs Sample.busy_connector
     (Sample.connection "10.0.0.7" "/bid") (mkHttpHeader "POST" "/bid")).1
  = inject_Z 20.
Proof.
  split.
  - apply (proj1 (getRoundTripTimeMs_lookup Sample.busy_connector
                    (Sample.connection "10.0.0.1" "/bid")
                    (mkHttpHeader "POST" "/bid"))).
    reflexivity.
  - apply (proj1 (proj2 (getRoundTripTimeMs_lookup Sample.busy_connector
                           (Sample.connection "10.0.0.7" "/bid")
                           (mkHttpHeader "POST" "/bid")))).
    reflexivity.
Defined.

Lemma handleUnknownRequest_ready_witness :
  sent_since (Sample.connection "10.0.0.1" "/ready")
    (handleUnknownRequest Sample.busy_connector
       (Sample.connection "10.0.0.1" "/ready")
       (mkHttpHeader "POST" "/ready") "payload")
  = [PutResponseOnWire (mkHttpResponse 200 "text/plain" "1")].
Proof.
  apply (handleUnknownRequest_ready Sample.busy_connector
           (Sample.connection "10.0.0.1" "/ready")
           (mkHttpHeader "POST" "/ready") "payload").
  reflexivity.
Defined.

Lemma handleUnknownRequest_other_witness :
  ∃ msg,
    sent_since (Sample.connection "10.0.0.1" "/status")
      (handleUnknownRequest Sample.busy_connector
         (Sample.connection "10.0.0.1" "/status")
         (mkHttpHeader "GET" "/status") "")
    = [SendErrorResponse msg] ∧
    msg = "unknown resource /status" ∧
    contains msg "/status".
Proof.
  destruct (handleUnknownRequest_other Sample.busy_connector
              (Sample.connection "10.0.0.1" "/status")
              (mkHttpHeader "GET" "/status") "")
    as (msg & Hsent & Hmsg & Hcontains & _).
  - discriminate.
  - exists msg. split_and!; [exact Hsent|exact Hmsg|exact Hcontains].
Defined.

Lemma getServiceStatus_report_witness :
  Json_get "connectionLoadFactor" (getServiceStatus Sample.connector)
  = JReal (inject_Z 0) ∧
  Json_get "connectionLoadFactor" (getServiceStatus Sample.busy_connector)
  = JReal (Qdiv (inject_Z 2) (inject_Z 4)).
Proof.
  split.
  - apply (proj1 (proj2 (proj2 (getServiceStatus_report Sample.connector)))).
    reflexivity.
  - apply (proj1 (proj2 (proj2 (proj2
             (getServiceStatus_report Sample.busy_connector))))).
    discriminate.
Defined.

Lemma live_handler_count_witness :
  handlers (this Sample.world) = ∅ ∧
  size (handlers (this (run Sample.busy_calls Sample.world).2)) = 1%nat.
Proof.
  split; [reflexivity|].
  apply (proj1 (proj2 (live_handler_count Sample.busy_calls Sample.world
                         eq_refl))).
Defined.

Lemma start_calls_witness :
  (start None Sample.busy_connector).2
  = [Init (10001, 10002) "*" 8 true true 128; MakeRealTime 5] ∧
  (start None Sample.connector).2
  = [Init (10001, 10002) "*" 8 true true 128].
Proof.
  split.
  - apply (proj1 (proj2 (proj2 (proj2 (proj2
             (start_calls Sample.busy_connector)))))).
    reflexivity.
  - apply (proj2 (proj2 (proj2 (proj2 (proj2
             (start_calls Sample.connector)))))).
    reflexivity.
Defined.

Lemma constructed_connector_creates_witness :
  existsb assigns_factory Sample.later_calls = false ∧
  ∃ h w',
    makeNewHandlerShared (run Sample.later_calls Sample.world).2 = (Ok h, w') ∧
    h ∈ handlers (this w').
Proof.
  split; [reflexivity|].
  apply (constructed_connector_creates (mkHttpEndpoint 0 ∅) Sample.storage
           ∅ ∅ Sample.later_calls).
  reflexivity.
Defined.

(** * The further properties on concrete objects *)

Lemma configureHttp_then_start_witness :
  start None (configureHttp 4 Sample.port "127.0.0.1" false 64 "/bid" "POST"
                10 Sample.connector)
  = (Ok (), [Init Sample.port "127.0.0.1" 4 true false 64; MakeRealTime 10]) ∧
  start None (configureHttp 4 Sample.port "127.0.0.1" false 64 "/bid" "POST"
                (-1) Sample.connector)
  = (Ok (), [Init Sample.port "127.0.0.1" 4 true false 64]).
Proof.
  split.
  - apply (proj1 (configureHttp_then_start 4 Sample.port "127.0.0.1" false
                    64 "/bid" "POST" 10 Sample.connector)).
    lia.
  - apply (proj2 (configureHttp_then_start 4 Sample.port "127.0.0.1" false
                    64 "/bid" "POST" (-1) Sample.connector)).
    lia.
Defined.

Lemma finishedWithHandler_membership_witness :
  1%nat ∈ handlers (this (finishedWithHandler 0 Sample.two_handler_world)).
Proof.
  apply (proj1 (proj2 (finishedWithHandler_membership
                         Sample.two_handler_world 0%nat)) 1%nat).
  - lia.
  - apply (bool_decide_unpack _). vm_compute. exact I.
Defined.

Lemma create_then_release_witness :
  makeNewHandlerShared Sample.one_handler_world
  = (Ok 1%nat, Sample.two_handler_world) ∧
  this (finishedWithHandler 1 Sample.two_handler_world)
  = this Sample.one_handler_world.
Proof.
  split; [reflexivity|].
  apply (create_then_release Sample.one_handler_world 1%nat
           Sample.two_handler_world).
  - apply (bool_decide_unpack _). vm_compute. exact I.
  - reflexivity.
Defined.

Lemma live_set_is_outstanding_witness :
  handlers (this Sample.world) = ∅ ∧
  1%nat ∈ handlers (this (run Sample.busy_calls Sample.world).2).
Proof.
  split; [reflexivity|].
  apply (proj1 (live_set_is_outstanding Sample.busy_calls Sample.world
                  eq_refl) 1%nat).
  vm_compute. left.
Defined.

Lemma stopRequestLogging_twice_witness :
  logger (this Sample.one_handler_world) = None ∧
  stopRequestLogging Sample.one_handler_world = Sample.one_handler_world.
Proof.
  split; [reflexivity|].
  apply (proj1 (stopRequestLogging_twice Sample.one_handler_world)).
  reflexivity.
Defined.

Lemma stopRequestLogging_closes_bound_logger_witness :
  handler_logger
    (stopRequestLogging (makeNewHandlerShared Sample.logging_world).2) 0%nat
  = Some 0%nat ∧
  loggerObjs (stopRequestLogging (makeNewHandlerShared Sample.logging_world).2)
    !! 0%nat
  = Some (HttpAuctionLogger.mk "requests.log" 10 true).
Proof.
  apply (stopRequestLogging_closes_bound_logger Sample.logging_world 0%nat
           (HttpAuctionLogger.mk "requests.log" 10 false) 0%nat
           (makeNewHandlerShared Sample.logging_world).2);
    reflexivity.
Defined.

Lemma startRequestLogging_replaces_witness :
  ∃ l', logger (this (startRequestLogging "other.log" 5
                        (makeNewHandlerShared Sample.logging_world).2))
        = Some l' ∧ l' ≠ 0%nat ∧
        handler_logger
          (startRequestLogging "other.log" 5
             (makeNewHandlerShared Sample.logging_world).2) 0%nat
        = Some 0%nat ∧
        loggerObjs (startRequestLogging "other.log" 5
                      (makeNewHandlerShared Sample.logging_world).2) !! 0%nat
        = Some (HttpAuctionLogger.mk "requests.log" 10 false).
Proof.
  destruct (startRequestLogging_replaces
              (makeNewHandlerShared Sample.logging_world).2 0%nat
              (HttpAuctionLogger.mk "requests.log" 10 false) 0%nat
              "other.log" 5 eq_refl eq_refl eq_refl)
    as (l' & Hl' & Hne & _ & Hh & Hold & _).
  exists l'. split_and!; [exact Hl'|exact Hne|exact Hh|exact Hold].
Defined.

Lemma installed_logger_stays_open_witness :
  logger_open Sample.logging_world ∧
  logger_open (run Sample.logging_calls Sample.logging_world).2.
Proof.
  assert (logger_open Sample.logging_world) as Hopen.
  { intros l Hl. vm_compute in Hl. injection Hl as <-.
    eexists. split; reflexivity. }
  split; [exact Hopen|].
  apply (proj1 (installed_logger_stays_open Sample.logging_calls
                  Sample.logging_world Hopen)).
Defined.

Lemma existing_handler_unchanged_witness :
  is_Some (handlerObjs Sample.one_handler_world !! 0%nat) ∧
  handler_logger
    (run [CallStartRequestLogging "requests.log" 10; CallMakeNewHandler]
         Sample.one_handler_world).2 0%nat
  = None.
Proof.
  assert (is_Some (handlerObjs Sample.one_handler_world !! 0%nat)) as Hobj.
  { eexists. reflexivity. }
  split; [exact Hobj|].
  rewrite (proj2 (existing_handler_unchanged
                    [CallStartRequestLogging "requests.log" 10;
                     CallMakeNewHandler]
                    Sample.one_handler_world 0%nat Hobj)).
  reflexivity.
Defined.

Lemma handleUnknownRequest_by_resource_witness :
  handleUnknownRequest Sample.connector (Sample.connection "10.0.0.1" "/x")
    (mkHttpHeader "GET" "/status") ""
  = handleUnknownRequest Sample.busy_connector
      (Sample.connection "10.0.0.1" "/x")
      (mkHttpHeader "POST" "/status") "payload".
Proof.
  apply (proj2 (handleUnknownRequest_by_resource Sample.connector
                  Sample.busy_connector (Sample.connection "10.0.0.1" "/x")
                  (mkHttpHeader "GET" "/status")
                  (mkHttpHeader "POST" "/status") "" "payload")).
  reflexivity.
Defined.

Lemma getServiceStatus_hostConnections_witness :
  Json_get "hostConnections" (getServiceStatus Sample.connector) = JNull.
Proof.
  apply (proj2 (getServiceStatus_hostConnections Sample.connector)).
  reflexivity.
Defined.
